(** * mypet/parameter.py : Parameter, PickleParameter and SimpleResult

    A shallow embedding of the container classes of [mypet/parameter.py].
    Python objects are modelled by the inductive [pyval]; a Python
    exception is an [exn]; each method is a function from the object's
    attribute dictionary (a record) to a result in a small error monad. *)

From Stdlib Require Import ZArith List String Bool QArith Lia.
Import ListNotations.
Close Scope Q_scope.
Open Scope string_scope.

(* ------------------------------------------------------------------ *)
(** ** Python values *)

(** numpy dtypes that occur in the code ([np.str] being the common
    super-dtype of the numpy string dtypes). *)
Inductive dtype := DInt | DFloat | DBool | DStr | DObject.

(** Classes of Python objects that are neither builtin scalars nor
    numpy arrays. [ObjectTable] is a subclass of pandas' [DataFrame]. *)
Inductive pyclass := CDataFrame | CObjectTable | CUser (n : nat).

Inductive pyval :=
  | PNone
  | PInt (z : Z)
  | PFloat (q : Q)
  | PBool (b : bool)
  | PStr (s : string)
  | PArray (dt : dtype) (shape : list nat) (payload : list Z)
  | PObj (c : pyclass) (id : nat)
  (** the byte string [pickle.dumps(v)] (a Python 2 [str]) *)
  | PPickle (v : pyval).
Arguments PFloat q%_Q.

(** [type(v)] *)
Inductive pytype :=
  | TNone | TInt | TFloat | TBool | TStr | TNdarray | TClass (c : pyclass).

Definition pytype_of (v : pyval) : pytype :=
  match v with
  | PNone => TNone
  | PInt _ => TInt
  | PFloat _ => TFloat
  | PBool _ => TBool
  | PStr _ | PPickle _ => TStr
  | PArray _ _ _ => TNdarray
  | PObj c _ => TClass c
  end.

Definition pyclass_eqb (a b : pyclass) : bool :=
  match a, b with
  | CDataFrame, CDataFrame | CObjectTable, CObjectTable => true
  | CUser n, CUser m => Nat.eqb n m
  | _, _ => false
  end.

Definition pytype_eqb (a b : pytype) : bool :=
  match a, b with
  | TNone, TNone | TInt, TInt | TFloat, TFloat | TBool, TBool
  | TStr, TStr | TNdarray, TNdarray => true
  | TClass c, TClass d => pyclass_eqb c d
  | _, _ => false
  end.

Definition dtype_eqb (a b : dtype) : bool :=
  match a, b with
  | DInt, DInt | DFloat, DFloat | DBool, DBool | DStr, DStr
  | DObject, DObject => true
  | _, _ => false
  end.

(** Python exceptions raised by the code. *)
Inductive exn :=
  | ParameterLockedException
  | AttributeError
  | TypeError
  | ValueError
  | IndexError
  | KeyError
  | NameError
  | AssertionError
  | UnpicklingError.

(** ** A small error monad *)
Inductive result (A : Type) :=
  | Ok (a : A)
  | Err (e : exn).
Arguments Ok {A} a.
Arguments Err {A} e.

Definition bind {A B} (m : result A) (f : A -> result B) : result B :=
  match m with Ok a => f a | Err e => Err e end.

Notation "'let!' x := m 'in' k" := (bind m (fun x => k))
  (at level 200, x name, m at level 100, k at level 200).

Definition raise {A} (e : exn) : result A := Err e.

(** [pickle.dumps] and [pickle.loads]: [loads] is the inverse of [dumps]
    on the strings it produces; any other input is not a pickle. *)
Definition pickle_dumps (v : pyval) : pyval := PPickle v.

Definition pickle_loads (v : pyval) : result pyval :=
  match v with PPickle w => Ok w | _ => Err UnpicklingError end.

(** Python indexing of a tuple or list, negative indices counting from
    the end. *)
Definition py_index {A} (l : list A) (n : Z) : result A :=
  let len := Z.of_nat (List.length l) in
  if ((0 <=? n) && (n <? len))%Z then
    match nth_error l (Z.to_nat n) with Some a => Ok a | None => Err IndexError end
  else if ((- len <=? n) && (n <? 0))%Z then
    match nth_error l (Z.to_nat (len + n)) with Some a => Ok a | None => Err IndexError end
  else Err IndexError.

(* ------------------------------------------------------------------ *)
(** ** The natively supported data *)

(** Modelled from the spec: [globally.PARAMETER_SUPPORTED_DATA] (module
    [mypet/globally.py], not part of the sources): the closed set of kinds
    Int | Float | Bool | String | Array(elementKind) of the classifier
    (spec 4.2). [_is_supported_data] looks up [dtype] for arrays and
    [type(data)] otherwise. *)
Definition PARAMETER_SUPPORTED_DATA_type (t : pytype) : bool :=
  match t with TInt | TFloat | TBool | TStr => true | _ => false end.

Definition PARAMETER_SUPPORTED_DATA_dtype (d : dtype) : bool :=
  match d with DObject => false | _ => true end.

(** [Parameter._is_supported_data] *)
Definition param_is_supported_data (data : pyval) : bool :=
  match data with
  | PArray dt _ _ => PARAMETER_SUPPORTED_DATA_dtype dt
  | _ => PARAMETER_SUPPORTED_DATA_type (pytype_of data)
  end.

(** [type(val1) == np.array]: [np.array] is a factory function, not a
    type, so no type compares equal to it. *)
Definition type_eq_np_array (t : pytype) : bool := false.

Fixpoint shape_eqb (a b : list nat) : bool :=
  match a, b with
  | [], [] => true
  | x :: a', y :: b' => Nat.eqb x y && shape_eqb a' b'
  | _, _ => false
  end.

Definition shape_of (v : pyval) : list nat :=
  match v with PArray _ sh _ => sh | _ => [] end.

Definition dtype_of (v : pyval) : dtype :=
  match v with PArray dt _ _ => dt | _ => DObject end.

(** [Parameter._values_of_same_type] *)
Definition values_of_same_type (val1 val2 : pyval) : bool :=
  if negb (pytype_eqb (pytype_of val1) (pytype_of val2)) then false
  else if type_eq_np_array (pytype_of val1) then
    if negb (dtype_eqb (dtype_of val1) (dtype_of val2)) then false
    else if negb (shape_eqb (shape_of val1) (shape_of val2)) then false
    else true
  else true.

(** [Parameter._convert_data]: sets numpy arrays read-only; the flag is
    not observed by the properties below, so the value is unchanged. *)
Definition convert_data (val : pyval) : pyval := val.

(* ------------------------------------------------------------------ *)
(** ** ObjectTable and storage records *)

(** An [ObjectTable] (a pandas [DataFrame] of dtype [object]) as its
    columns, in order: column name and the column's cells verbatim. *)
Definition table := list (string * list pyval).

(** The dictionary exchanged with the storage service: table name and
    table. *)
Definition record := list (string * table).

Fixpoint dict_get {A} (k : string) (d : list (string * A)) : option A :=
  match d with
  | [] => None
  | (k', a) :: d' => if String.eqb k k' then Some a else dict_get k d'
  end.

(** [d[k]] *)
Definition dict_item {A} (d : list (string * A)) (k : string) : result A :=
  match dict_get k d with Some a => Ok a | None => Err KeyError end.

(** [sub in s] for strings *)
Fixpoint str_contains (sub s : string) : bool :=
  if String.prefix sub s then true
  else match s with
       | EmptyString => false
       | String _ s' => str_contains sub s'
       end.

(* ------------------------------------------------------------------ *)
(** ** Parameter objects *)

(** The class of the object ([Parameter] is a keyword of Rocq). *)
Inductive pcls := Parameter_ | PickleParameter_.

(** [_explored_data] is a tuple, except after [shrink], which sets it to
    the empty dict [{}]. *)
Inductive explored := ETuple (l : list pyval) | EEmptyDict.

Definition explored_list (e : explored) : list pyval :=
  match e with ETuple l => l | EEmptyDict => [] end.

(** [self._explored_data[n]] *)
Definition explored_index (e : explored) (n : Z) : result pyval :=
  match e with ETuple l => py_index l n | EEmptyDict => Err KeyError end.

(** The attribute dictionary of a [Parameter] / [PickleParameter]
    ([_name] and [_location] are derived from [_fullname]; [_logger] is
    not modelled). *)
Record param := mkParam {
  p_cls : pcls;
  p_fullname : string;
  p_comment : option string;
  p_data : pyval;
  p_explored_data : explored;
  p_length : nat;
  p_locked : bool;
  p_fullcopy : bool }.

Definition with_data (s : param) (d : pyval) : param :=
  mkParam (p_cls s) (p_fullname s) (p_comment s) d (p_explored_data s)
    (p_length s) (p_locked s) (p_fullcopy s).
Definition with_explored (s : param) (e : explored) : param :=
  mkParam (p_cls s) (p_fullname s) (p_comment s) (p_data s) e
    (p_length s) (p_locked s) (p_fullcopy s).
Definition with_length (s : param) (n : nat) : param :=
  mkParam (p_cls s) (p_fullname s) (p_comment s) (p_data s)
    (p_explored_data s) n (p_locked s) (p_fullcopy s).
Definition with_locked (s : param) (b : bool) : param :=
  mkParam (p_cls s) (p_fullname s) (p_comment s) (p_data s)
    (p_explored_data s) (p_length s) b (p_fullcopy s).
Definition with_fullcopy (s : param) (b : bool) : param :=
  mkParam (p_cls s) (p_fullname s) (p_comment s) (p_data s)
    (p_explored_data s) (p_length s) (p_locked s) b.
Definition with_comment (s : param) (c : option string) : param :=
  mkParam (p_cls s) (p_fullname s) c (p_data s)
    (p_explored_data s) (p_length s) (p_locked s) (p_fullcopy s).

(** ** Methods: state and exceptions

    A method maps the object's state to its outcome and the state it
    leaves behind; an exception keeps the assignments made before it. *)
Definition PM (A : Type) := param -> result A * param.

Definition ret {A} (a : A) : PM A := fun s => (Ok a, s).
Definition bindM {A B} (m : PM A) (f : A -> PM B) : PM B :=
  fun s => match m s with
           | (Ok a, s') => f a s'
           | (Err e, s') => (Err e, s')
           end.
Definition throw {A} (e : exn) : PM A := fun s => (Err e, s).
Definition lift {A} (r : result A) : PM A := fun s => (r, s).
Definition self : PM param := fun s => (Ok s, s).
Definition modify (f : param -> param) : PM unit := fun s => (Ok tt, f s).

Notation "'let*' x := m 'in' k" := (bindM m (fun x => k))
  (at level 200, x name, m at level 100, k at level 200).
Notation "m ;; k" := (bindM m (fun _ => k)) (at level 100, right associativity).

Definition is_array (s : param) : bool := Nat.ltb 1 (p_length s).
Definition is_empty (s : param) : bool := Nat.eqb (p_length s) 0.
Definition is_locked (s : param) : bool := p_locked s.

(** [_is_supported_data], overridden by [PickleParameter] to accept
    everything. *)
Definition is_supported_data (s : param) (data : pyval) : bool :=
  match p_cls s with
  | Parameter_ => param_is_supported_data data
  | PickleParameter_ => true
  end.

(** [BaseParameter.lock] / [unlock] *)
Definition lock : PM unit := modify (fun s => with_locked s true).
Definition unlock : PM unit := modify (fun s => with_locked s false).

(** [Parameter.set] *)
Definition set (data : pyval) : PM unit :=
  let* s := self in
  if is_locked s then throw ParameterLockedException
  else if is_array s then throw AttributeError
  else
    let val := convert_data data in
    if negb (is_supported_data s val) then throw AttributeError
    else modify (fun s => with_length (with_data s val) 1).

(** The loop of [Parameter._data_sanity_checks]; an unsupported value
    makes the message formatting evaluate the undefined name [key]. *)
Fixpoint sanity_loop (s : param) (default_val : pyval) (data_list : list pyval)
  : result (list pyval) :=
  match data_list with
  | [] => Ok []
  | val :: rest =>
      let newval := convert_data val in
      if negb (is_supported_data s newval) then Err NameError
      else if negb (values_of_same_type newval default_val) then Err TypeError
      else match sanity_loop s default_val rest with
           | Ok tl => Ok (newval :: tl)
           | Err e => Err e
           end
  end.

(** [Parameter._data_sanity_checks] *)
Definition data_sanity_checks (data_list : list pyval) : PM (list pyval) :=
  let* s := self in lift (sanity_loop s (p_data s) data_list).

(** [Parameter.explore] *)
Definition explore (explore_list : list pyval) : PM unit :=
  let* s := self in
  if is_locked s then throw ParameterLockedException
  else if is_array s then throw TypeError
  else
    let* data_tuple := data_sanity_checks explore_list in
    modify (fun s => with_length s (List.length data_tuple)) ;;
    modify (fun s => with_explored s (ETuple data_tuple)) ;;
    lock.

(** [Parameter.set_parameter_access] (the spec's [selectPoint]) *)
Definition set_parameter_access (n : Z) : PM unit :=
  let* s := self in
  if (Z.of_nat (p_length s) <=? n)%Z && is_array s then throw ValueError
  else
    let* v := lift (explored_index (p_explored_data s) n) in
    modify (fun s => with_data s v).

(** [Parameter.get] *)
Definition get : PM pyval :=
  lock ;;
  let* s := self in ret (p_data s).

(** [BaseParameter.to_str]: reads the value through [get] and restores
    the lock flag (the returned text is not modelled). *)
Definition to_str : PM unit :=
  let* s := self in
  let old_locked := p_locked s in
  let* _ := get in
  modify (fun s => with_locked s old_locked).

(** [Parameter.shrink] *)
Definition shrink : PM unit :=
  let* s := self in
  if is_empty s then throw TypeError
  else if is_locked s then throw ParameterLockedException
  else
    modify (fun s => with_explored s EEmptyDict) ;;
    modify (fun s => with_length s 1).

(** [Parameter.empty] *)
Definition empty : PM unit :=
  let* s := self in
  if is_locked s then throw ParameterLockedException
  else
    shrink ;;
    modify (fun s => with_data s PNone) ;;
    modify (fun s => with_length s 0).

(** [Parameter.set_full_copy] *)
Definition set_full_copy (val : bool) : PM unit :=
  modify (fun s => with_fullcopy s val).

(** [Parameter.add_comment] *)
Definition add_comment (comment : string) : PM unit :=
  modify (fun s => match p_comment s with
                   | None => with_comment s (Some comment)
                   | Some c => with_comment s (Some (c ++ ";" ++ String (Ascii.ascii_of_nat 10) " " ++ comment))
                   end).

(** [Parameter.__init__(fullname, data=None, comment=None)], also the
    constructor of [PickleParameter]; the object does not exist when
    [set] raises. *)
Definition new_parameter (cls : pcls) (fullname : string) (data : pyval)
    (comment : option string) : result param :=
  let s0 := mkParam cls fullname comment PNone (ETuple []) 0 false false in
  let (r, s1) :=
    match data with
    | PNone => (Ok tt, s0)
    | _ => set data s0
    end in
  match r with
  | Ok _ => Ok (with_fullcopy s1 false)
  | Err e => Err e
  end.

(** A [Parameter] built with [fullname] only, as the storage service
    creates it before [__load__]. *)
Definition fresh (cls : pcls) (fullname : string) : param :=
  mkParam cls fullname None PNone (ETuple []) 0 false false.

(** ** Storage *)

Definition Data := "Data".
Definition ExploredData := "ExploredData".
Definition identifier := "__pckl__".

(** [Parameter.__store__] *)
Definition param_store : PM record :=
  let* s := self in
  ret ((Data, [("data", [p_data s])])
       :: (if is_array s
           then [(ExploredData, [("data", explored_list (p_explored_data s))])]
           else [])).

(** [Parameter.__load__] *)
Definition param_load (load_dict : record) : PM unit :=
  let* t := lift (dict_item load_dict Data) in
  let* col := lift (dict_item t "data") in
  let* v := lift (py_index col 0) in
  modify (fun s => with_data s v) ;;
  match dict_get ExploredData load_dict with
  | Some et =>
      let* ecol := lift (dict_item et "data") in
      modify (fun s => with_explored s (ETuple ecol)) ;;
      modify (fun s => with_length s (List.length ecol))
  | None => modify (fun s => with_length s 1)
  end.

(** [PickleParameter.__store__] *)
Definition pickle_store : PM record :=
  let* s := self in
  if negb (param_is_supported_data (p_data s)) then
    let dump := pickle_dumps (p_data s) in
    ret ((Data, [("data" ++ identifier, [dump])])
         :: (if is_array s
             then [(ExploredData,
                    [("data" ++ identifier,
                      map pickle_dumps (explored_list (p_explored_data s)))])]
             else []))
  else param_store.

(** The loop of [PickleParameter.__load__] over the pickled column. *)
Fixpoint loads_all (col : list pyval) : result (list pyval) :=
  match col with
  | [] => Ok []
  | d :: col' =>
      match pickle_loads d, loads_all col' with
      | Ok v, Ok vs => Ok (v :: vs)
      | Err e, _ => Err e
      | _, Err e => Err e
      end
  end.

(** [PickleParameter.__load__] *)
Definition pickle_load (load_dict : record) : PM unit :=
  let* data_table := lift (dict_item load_dict Data) in
  let* first_col := lift (py_index data_table 0) in
  let data_name := fst first_col in
  if str_contains identifier data_name then
    let* pcol := lift (dict_item data_table ("data" ++ identifier)) in
    let* dump := lift (py_index pcol 0) in
    let* v := lift (pickle_loads dump) in
    modify (fun s => with_data s v) ;;
    match dict_get ExploredData load_dict with
    | Some explore_table =>
        let* pickle_col := lift (dict_item explore_table ("data" ++ identifier)) in
        let* explore_list := lift (loads_all pickle_col) in
        modify (fun s => with_explored s (ETuple explore_list)) ;;
        modify (fun s => with_length s (List.length explore_list))
    | None => ret tt
    end
  else param_load load_dict.

(** [__store__] and [__load__], dispatched on the class. *)
Definition store : PM record :=
  let* s := self in
  match p_cls s with Parameter_ => param_store | PickleParameter_ => pickle_store end.

Definition load (load_dict : record) : PM unit :=
  let* s := self in
  match p_cls s with
  | Parameter_ => param_load load_dict
  | PickleParameter_ => pickle_load load_dict
  end.

(** ** Pickling for transfer to another process *)

(** [Parameter.__getstate__]: the attribute dictionary, with the explored
    data replaced by an empty tuple unless a full copy is requested. *)
Definition getstate (s : param) : param :=
  if p_fullcopy s then s else with_explored s (ETuple []).

(** [Parameter.__setstate__]: the new object takes the dictionary as its
    attributes (and a fresh logger). *)
Definition setstate (statedict : param) : param := statedict.

(** Sending a parameter to a worker: pickle, then unpickle. *)
Definition transfer (s : param) : param := setstate (getstate s).

(* ------------------------------------------------------------------ *)
(** ** SimpleResult *)

(** [str(n)] for a non-negative [int] *)
Fixpoint str_nat_aux (fuel n : nat) (acc : string) : string :=
  match fuel with
  | O => acc
  | S fuel' =>
      let acc' := String (Ascii.ascii_of_nat (48 + n mod 10)) acc in
      if Nat.ltb n 10 then acc' else str_nat_aux fuel' (n / 10) acc'
  end.

Definition str_nat (n : nat) : string := str_nat_aux (S n) n "".

(** The attribute dictionary of a [SimpleResult]. *)
Record sresult := mkResult {
  r_fullname : string;
  r_data : list (string * pyval);
  r_comment : pyval }.

(** [d[k] = v] on a dict kept as an association list *)
Fixpoint dict_set {A} (k : string) (v : A) (d : list (string * A))
  : list (string * A) :=
  match d with
  | [] => [(k, v)]
  | (k', a) :: d' => if String.eqb k k' then (k, v) :: d' else (k', a) :: dict_set k v d'
  end.

Definition is_str (v : pyval) : bool :=
  match pytype_of v with TStr => true | _ => false end.

(** [isinstance(item, (np.ndarray, ObjectTable, DataFrame))] *)
Definition is_bulk (v : pyval) : bool :=
  match v with
  | PArray _ _ _ => true
  | PObj CDataFrame _ | PObj CObjectTable _ => true
  | _ => false
  end.

Definition RM (A : Type) := sresult -> result A * sresult.

(** [SimpleResult.set_single] *)
Definition set_single (name : string) (item : pyval) : RM unit :=
  fun r =>
    let r1 :=
      if String.eqb name "comment" || String.eqb name "Comment" then
        if is_str item then Ok (mkResult (r_fullname r) (r_data r) item)
        else Err AssertionError
      else Ok r in
    match r1 with
    | Err e => (Err e, r)
    | Ok r1 =>
        if String.eqb name "Info" then (Err ValueError, r1)
        else if is_bulk item
        then (Ok tt, mkResult (r_fullname r1) (dict_set name item (r_data r1)) (r_comment r1))
        else (Err TypeError, r1)
    end.

Fixpoint set_args (idx : nat) (args : list pyval) : RM unit :=
  fun r =>
    match args with
    | [] => (Ok tt, r)
    | arg :: args' =>
        match set_single ("res" ++ str_nat idx) arg r with
        | (Ok _, r') => set_args (S idx) args' r'
        | (Err e, r') => (Err e, r')
        end
    end.

Fixpoint set_kwargs (kwargs : list (string * pyval)) : RM unit :=
  fun r =>
    match kwargs with
    | [] => (Ok tt, r)
    | (key, arg) :: kw' =>
        match set_single key arg r with
        | (Ok _, r') => set_kwargs kw' r'
        | (Err e, r') => (Err e, r')
        end
    end.

(** [SimpleResult.set] (positional args, then keyword args) *)
Definition result_set (args : list pyval) (kwargs : list (string * pyval)) : RM unit :=
  fun r =>
    match set_args 0 args r with
    | (Ok _, r') => set_kwargs kwargs r'
    | (Err e, r') => (Err e, r')
    end.

(** [kwargs.pop(key, default)] *)
Fixpoint kw_pop (key : string) (default : pyval) (kwargs : list (string * pyval))
  : pyval * list (string * pyval) :=
  match kwargs with
  | [] => (default, [])
  | (k, v) :: kw' =>
      if String.eqb k key then (v, kw')
      else let (x, rest) := kw_pop key default kw' in (x, (k, v) :: rest)
  end.

(** [SimpleResult.__init__] (fullname, positional and keyword args) *)
Definition new_simple_result (fullname : string) (args : list pyval)
    (kwargs : list (string * pyval)) : result sresult :=
  let (comment, kwargs') := kw_pop "comment" PNone kwargs in
  let r0 := mkResult fullname [] comment in
  match result_set args kwargs' r0 with
  | (Ok _, r) => Ok r
  | (Err e, _) => Err e
  end.

(** [getattr(result, name)] ([SimpleResult.__getattr__]) *)
Definition result_getattr (r : sresult) (name : string) : result pyval :=
  if String.eqb name "Comment" || String.eqb name "comment" then Ok (r_comment r)
  else dict_item (r_data r) name.

(* ------------------------------------------------------------------ *)
(** ** Sequences of calls on one Parameter *)

Inductive op :=
  | OpSet (v : pyval)
  | OpExplore (vs : list pyval)
  | OpSetParameterAccess (n : Z)
  | OpGet
  | OpToStr
  | OpShrink
  | OpEmpty
  | OpLock
  | OpUnlock
  | OpSetFullCopy (b : bool)
  | OpAddComment (c : string)
  | OpStore
  | OpLoad (rec : record)
  | OpTransfer.

(** The object after the call, whether the call returned or raised. *)
Definition step (o : op) (s : param) : param :=
  match o with
  | OpSet v => snd (set v s)
  | OpExplore vs => snd (explore vs s)
  | OpSetParameterAccess n => snd (set_parameter_access n s)
  | OpGet => snd (get s)
  | OpToStr => snd (to_str s)
  | OpShrink => snd (shrink s)
  | OpEmpty => snd (empty s)
  | OpLock => snd (lock s)
  | OpUnlock => snd (unlock s)
  | OpSetFullCopy b => snd (set_full_copy b s)
  | OpAddComment c => snd (add_comment c s)
  | OpStore => snd (store s)
  | OpLoad rec => snd (load rec s)
  | OpTransfer => transfer s
  end.

Fixpoint run (ops : list op) (s : param) : param :=
  match ops with
  | [] => s
  | o :: ops' => run ops' (step o s)
  end.

(** Storing into a record and loading it into a new object of the same
    class and name. *)
Definition roundtrip (s : param) : result param :=
  match fst (store s) with
  | Ok rec =>
      match load rec (fresh (p_cls s) (p_fullname s)) with
      | (Ok _, s') => Ok s'
      | (Err e, _) => Err e
      end
  | Err e => Err e
  end.

(** The explored data hold one value per point whenever the parameter
    is an array. *)
Definition explored_consistent (s : param) : Prop :=
  is_array s = true -> List.length (explored_list (p_explored_data s)) = p_length s.

(* ------------------------------------------------------------------ *)
(** ** Proof automation *)

Create HintDb pm.
#[local] Hint Unfold bindM ret throw lift self modify lock unlock get set explore
  data_sanity_checks set_parameter_access to_str shrink empty set_full_copy
  add_comment store load param_store pickle_store param_load pickle_load
  getstate setstate transfer with_data with_explored with_length with_locked
  with_fullcopy with_comment : pm.

Ltac split_matches :=
  repeat (simpl in *;
          match goal with
          | |- context [match ?x with _ => _ end] => destruct x eqn:?
          | |- context [if ?x then _ else _] => destruct x eqn:?
          end).

Ltac pm_simpl := autounfold with pm in *; simpl in *.

(** No call other than [unlock] clears the lock flag. *)
Lemma step_keeps_locked (o : op) (s : param) :
  o <> OpUnlock -> p_locked s = true -> p_locked (step o s) = true.
Proof.
  intros Hne Hl; destruct s as [c fn cm d e n lk fc]; simpl in Hl; subst lk.
  destruct o; try congruence; unfold step; pm_simpl; split_matches; auto.
Qed.

Lemma run_keeps_locked (ops : list op) (s : param) :
  ~ In OpUnlock ops -> p_locked s = true -> p_locked (run ops s) = true.
Proof.
  revert s; induction ops as [|o ops IH]; intros s Hin Hl; simpl; auto.
  apply IH.
  - intro H; apply Hin; right; exact H.
  - apply step_keeps_locked; auto. intro H; apply Hin; left; congruence.
Qed.

Lemma set_when_locked (v : pyval) (s : param) :
  p_locked s = true -> set v s = (Err ParameterLockedException, s).
Proof. intros Hl; pm_simpl; unfold is_locked; rewrite Hl; reflexivity. Qed.

Lemma explore_when_locked (vs : list pyval) (s : param) :
  p_locked s = true -> explore vs s = (Err ParameterLockedException, s).
Proof. intros Hl; pm_simpl; unfold is_locked; rewrite Hl; reflexivity. Qed.

(** A call of [explore] that returns leaves the explored values, the
    length and the lock as the code sets them. *)
Lemma explore_ok_inv (vs : list pyval) (s s' : param) :
  explore vs s = (Ok tt, s') ->
  exists tup, sanity_loop s (p_data s) vs = Ok tup /\
    p_locked s = false /\ is_array s = false /\
    s' = mkParam (p_cls s) (p_fullname s) (p_comment s) (p_data s) (ETuple tup)
           (List.length tup) true (p_fullcopy s).
Proof.
  pm_simpl; unfold is_locked.
  destruct (p_locked s) eqn:Hl; [discriminate|].
  destruct (is_array s) eqn:Ha; [discriminate|].
  destruct (sanity_loop s (p_data s) vs) as [tup|e] eqn:Hs; [|discriminate].
  intros H; inversion H; subst; exists tup; auto.
Qed.

(** A call of [explore] that raises leaves the object as it was. *)
Lemma explore_err_unchanged (vs : list pyval) (s s' : param) (e : exn) :
  explore vs s = (Err e, s') -> s' = s.
Proof.
  pm_simpl; unfold is_locked.
  destruct (p_locked s); [congruence|].
  destruct (is_array s); [congruence|].
  destruct (sanity_loop s (p_data s) vs); congruence.
Qed.

(* ------------------------------------------------------------------ *)
(** ** Concrete objects used below *)

(** [Parameter("x", 1.0)] *)
Definition ex_single : param := snd (set (PFloat 1) (fresh Parameter_ "x")).

(** [Parameter("x", 1.0).explore([1.0, 2.0, 3.0])] *)
Definition ex_explored : param :=
  snd (explore [PFloat 1; PFloat 2; PFloat 3] ex_single).

Example ex_explored_shape :
  p_length ex_explored = 3 /\ p_locked ex_explored = true /\
  p_explored_data ex_explored = ETuple [PFloat 1; PFloat 2; PFloat 3].
Proof. vm_compute; auto. Qed.

(* ------------------------------------------------------------------ *)
(** ** C3: exploration locks the parameter *)

(** C3. After [explore] has returned, the parameter is locked, and as
    long as [unlock] is not called, whatever other calls are made in
    between, every [set(v)] and every [explore(vs)] raises the locked
    exception (and leaves the object unchanged). *)
Theorem explore_locks_until_unlock (vs : list pyval) (s s' : param) (ops : list op) :
  explore vs s = (Ok tt, s') ->
  ~ In OpUnlock ops ->
  p_locked s' = true /\
  (forall v, set v (run ops s') = (Err ParameterLockedException, run ops s')) /\
  (forall vs', explore vs' (run ops s') = (Err ParameterLockedException, run ops s')).
Proof.
  intros Hex Hin.
  destruct (explore_ok_inv vs s s' Hex) as (tup & _ & _ & _ & ->).
  assert (Hl : p_locked (run ops (mkParam (p_cls s) (p_fullname s) (p_comment s)
                  (p_data s) (ETuple tup) (List.length tup) true (p_fullcopy s))) = true)
    by (apply run_keeps_locked; auto).
  split; [reflexivity|split].
  - intros v; apply set_when_locked; exact Hl.
  - intros vs'; apply explore_when_locked; exact Hl.
Qed.

Lemma explore_locks_until_unlock_witness :
  explore [PFloat 1; PFloat 2; PFloat 3] ex_single = (Ok tt, ex_explored) /\
  ~ In OpUnlock [OpGet; OpToStr; OpSetParameterAccess 1%Z; OpTransfer] /\
  set (PFloat 5) (run [OpGet; OpToStr; OpSetParameterAccess 1%Z; OpTransfer] ex_explored)
    = (Err ParameterLockedException,
       run [OpGet; OpToStr; OpSetParameterAccess 1%Z; OpTransfer] ex_explored).
Proof.
  split; [vm_compute; reflexivity|].
  split; [simpl; intuition discriminate|].
  apply (explore_locks_until_unlock [PFloat 1; PFloat 2; PFloat 3] ex_single ex_explored
           [OpGet; OpToStr; OpSetParameterAccess 1%Z; OpTransfer]).
  - vm_compute; reflexivity.
  - simpl; intuition discriminate.
Defined.

(* ------------------------------------------------------------------ *)
(** ** C1: store / load round trip *)

(** Every call other than the transfer to another process keeps the
    explored values in step with the length. *)
Lemma step_explored_consistent (o : op) (s : param) :
  o <> OpTransfer -> explored_consistent s -> explored_consistent (step o s).
Proof.
  intros Hne Hc; destruct s as [c fn cm d e n lk fc].
  unfold explored_consistent, is_array in *; simpl in *.
  destruct o; try congruence; unfold step; pm_simpl;
    unfold is_locked, is_array, is_empty in *; simpl in *; split_matches;
    simpl in *; auto; try discriminate; try (intros; reflexivity);
    try (intros H; congruence);
    match goal with
    | H : (if ?x then _ else _) _ = _ |- _ =>
        destruct x; inversion H; subst; simpl in *; auto
    end.
Qed.

(** Any sequence of calls on a parameter ([set], [explore],
    [set_parameter_access], [get], [to_str], [shrink], [empty], [lock],
    [unlock], [set_full_copy], [add_comment], [store], [load] of any
    record), each returning or raising, without a transfer to another
    process, keeps the number of explored values equal to the length
    whenever the parameter is an array. *)
Lemma run_explored_consistent (ops : list op) (s : param) :
  ~ In OpTransfer ops -> explored_consistent s -> explored_consistent (run ops s).
Proof.
  revert s; induction ops as [|o ops IH]; intros s Hin Hc; simpl; auto.
  apply IH.
  - intro H; apply Hin; right; exact H.
  - apply step_explored_consistent; auto. intro H; apply Hin; left; congruence.
Qed.

(** C1 (amended). For every [Parameter] holding a value (length at
    least 1) whose explored values number [length] when it is an array
    (every parameter built by [set], [explore], [load] and the other
    calls, but not a copy received by point transfer), loading the record
    produced by [store()] into a new [Parameter] gives the same [get()]
    result, the same [is_array()] and the same length. *)
Theorem store_load_roundtrip (s : param) :
  p_cls s = Parameter_ -> (1 <= p_length s)%nat -> explored_consistent s ->
  exists s', roundtrip s = Ok s' /\
    fst (get s') = fst (get s) /\ is_array s' = is_array s /\
    p_length s' = p_length s.
Proof.
  intros Hc Hn Hcons; unfold explored_consistent in Hcons.
  unfold roundtrip; pm_simpl; rewrite Hc; pm_simpl.
  destruct (is_array s) eqn:Ha; simpl.
  - eexists; split; [reflexivity|]; simpl.
    unfold is_array in *; simpl; rewrite Hcons by reflexivity.
    split; [reflexivity|split]; [exact Ha|reflexivity].
  - eexists; split; [reflexivity|]; simpl.
    unfold is_array in *; simpl.
    apply Nat.ltb_ge in Ha.
    assert (p_length s = 1)%nat as -> by (apply Nat.le_antisymm; auto).
    auto.
Qed.

Lemma store_load_roundtrip_witness :
  p_cls ex_explored = Parameter_ /\ (1 <= p_length ex_explored)%nat /\
  explored_consistent ex_explored /\
  exists s', roundtrip ex_explored = Ok s' /\
    fst (get s') = fst (get ex_explored) /\
    is_array s' = is_array ex_explored /\ p_length s' = p_length ex_explored.
Proof.
  assert (Hc : p_cls ex_explored = Parameter_) by (vm_compute; reflexivity).
  assert (Hn : (1 <= p_length ex_explored)%nat) by (vm_compute; auto).
  assert (Hk : explored_consistent ex_explored)
    by (unfold explored_consistent; vm_compute; auto).
  split; [exact Hc|split; [exact Hn|split; [exact Hk|]]].
  exact (store_load_roundtrip ex_explored Hc Hn Hk).
Defined.

(** C1 (counterexample). A copy of [ex_explored] received by point
    transfer still has length 3 but no explored values; its record has an
    empty [ExploredData] table, and loading it gives length 0 and no
    array. *)
Lemma store_load_roundtrip_counterexample :
  match roundtrip (transfer ex_explored) with
  | Ok s' => p_length s' <> p_length (transfer ex_explored) /\
             is_array s' <> is_array (transfer ex_explored)
  | Err _ => False
  end.
Proof. vm_compute; split; discriminate. Qed.

(* ------------------------------------------------------------------ *)
(** ** C7: reading a value locks the parameter *)

(** C7. On an unlocked single-value parameter, [get()] returns the
    representative value and locks the parameter; a second [get()]
    returns the same value and leaves the parameter locked and
    otherwise unchanged. *)
Theorem get_locks_idempotent (s : param) :
  p_locked s = false -> p_length s = 1%nat ->
  get s = (Ok (p_data s), with_locked s true) /\
  p_locked (with_locked s true) = true /\
  get (with_locked s true) = (Ok (p_data s), with_locked s true).
Proof.
  intros _ _; destruct s; pm_simpl; auto.
Qed.

Lemma get_locks_idempotent_witness :
  p_locked ex_single = false /\ p_length ex_single = 1%nat /\
  get ex_single = (Ok (PFloat 1), with_locked ex_single true) /\
  p_locked (with_locked ex_single true) = true /\
  get (with_locked ex_single true) = (Ok (PFloat 1), with_locked ex_single true).
Proof.
  assert (H1 : p_locked ex_single = false) by (vm_compute; reflexivity).
  assert (H2 : p_length ex_single = 1%nat) by (vm_compute; reflexivity).
  split; [exact H1|split; [exact H2|]].
  exact (get_locks_idempotent ex_single H1 H2).
Defined.

(* ------------------------------------------------------------------ *)
(** ** C4: selecting an exploration point *)

Lemma py_index_nonneg {A} (l : list A) (i : nat) (d : A) :
  (i < List.length l)%nat -> py_index l (Z.of_nat i) = Ok (nth i l d).
Proof.
  intros Hi; unfold py_index.
  replace ((0 <=? Z.of_nat i)%Z && (Z.of_nat i <? Z.of_nat (List.length l))%Z) with true
    by (symmetry; apply andb_true_intro; split; [apply Z.leb_le|apply Z.ltb_lt]; lia).
  rewrite Nat2Z.id, (nth_error_nth' l d Hi); reflexivity.
Qed.





(* ------------------------------------------------------------------ *)
(** ** C6: point transfer *)

(** C6 (amended). A copy of an exploring parameter sent with
    [fullcopy = False] has no explored values left (its snapshot holds an
    empty tuple), but keeps the current value, the length and the lock;
    [set_parameter_access(i)] on the copy raises [IndexError] for every
    [i] in [0, length), and [get()] on the copy returns the value current
    at transfer time. Selecting point [n] before the transfer makes
    [get()] on the copy return the [n]-th explored value. *)
Theorem point_transfer (s : param) :
  p_fullcopy s = false -> (1 < p_length s)%nat ->
  explored_list (p_explored_data (transfer s)) = [] /\
  p_data (transfer s) = p_data s /\
  p_length (transfer s) = p_length s /\
  p_locked (transfer s) = p_locked s /\
  (forall i, (0 <= i < Z.of_nat (p_length s))%Z ->
     fst (set_parameter_access i (transfer s)) = Err IndexError) /\
  fst (get (transfer s)) = Ok (p_data s) /\
  (forall l n s1, p_explored_data s = ETuple l -> (n < List.length l)%nat ->
     set_parameter_access (Z.of_nat n) s = (Ok tt, s1) ->
     fst (get (transfer s1)) = Ok (nth n l PNone)).
Proof.
  intros Hf Ha.
  assert (Hgs : getstate s = with_explored s (ETuple []))
    by (unfold getstate; rewrite Hf; reflexivity).
  unfold transfer, setstate; rewrite Hgs.
  split; [reflexivity|split; [reflexivity|split; [reflexivity|split; [reflexivity|]]]].
  split; [|split].
  - intros i Hi; pm_simpl; unfold is_array; simpl.
    replace (Z.of_nat (p_length s) <=? i)%Z with false by (symmetry; apply Z.leb_gt; lia).
    simpl; unfold py_index; simpl.
    replace ((0 <=? i)%Z && (i <? 0)%Z) with false
      by (symmetry; apply andb_false_intro2; apply Z.ltb_ge; lia).
    replace ((0 <=? i)%Z && (i <? 0)%Z) with false
      by (symmetry; apply andb_false_intro2; apply Z.ltb_ge; lia).
    reflexivity.
  - reflexivity.
  - intros l n s1 He Hn Hsel.
    revert Hsel; pm_simpl; rewrite He; simpl.
    rewrite (py_index_nonneg l n PNone Hn).
    destruct ((Z.of_nat (p_length s) <=? Z.of_nat n)%Z && is_array s); [discriminate|].
    intros H; inversion H; subst; simpl.
    unfold getstate; simpl; rewrite Hf; reflexivity.
Qed.

Lemma point_transfer_witness :
  p_fullcopy ex_explored = false /\ (1 < p_length ex_explored)%nat /\
  fst (get (transfer (snd (set_parameter_access 2%Z ex_explored)))) = Ok (PFloat 3).
Proof.
  assert (H1 : p_fullcopy ex_explored = false) by (vm_compute; reflexivity).
  assert (H2 : (1 < p_length ex_explored)%nat) by (vm_compute; auto).
  split; [exact H1|split; [exact H2|]].
  destruct (point_transfer ex_explored H1 H2) as (_ & _ & _ & _ & _ & _ & Hsel).
  exact (Hsel [PFloat 1; PFloat 2; PFloat 3] 2%nat _
           ltac:(vm_compute; reflexivity) ltac:(simpl; auto) ltac:(vm_compute; reflexivity)).
Defined.

(** C6 (counterexample). After the point transfer of [ex_explored]
    ([fullcopy] is [False]), [set_parameter_access(1)] on the copy raises
    [IndexError] instead of selecting the second value. *)
Lemma point_transfer_counterexample :
  p_fullcopy ex_explored = false /\
  fst (set_parameter_access 1%Z (transfer ex_explored)) = Err IndexError.
Proof. split; vm_compute; reflexivity. Qed.

(* ------------------------------------------------------------------ *)
(** ** C2: type checks of [explore] *)

(** [np.array([1, 2])] and [np.array([1, 2, 3])] *)
Definition arr12 : pyval := PArray DInt [2%nat] [1%Z; 2%Z].
Definition arr123 : pyval := PArray DInt [3%nat] [1%Z; 2%Z; 3%Z].

(** [Parameter("x", np.array([1, 2]))] *)
Definition ex_array : param := snd (set arr12 (fresh Parameter_ "x")).

(** C2 (code). [explore([np.array([1, 2]), np.array([1, 2, 3])])] on
    [Parameter("x", np.array([1, 2]))] returns although the second
    candidate's shape differs from the representative's: the shape and
    dtype test of [_values_of_same_type] is guarded by
    [type(val1) == np.array], which never holds. A candidate of an
    unsupported type makes [explore] raise [NameError] (the message
    names the undefined [key]), with the object unchanged. *)
Theorem explore_shape_mismatch_accepted :
  shape_of arr123 <> shape_of arr12 /\
  explore [arr12; arr123] ex_array =
    (Ok tt, mkParam Parameter_ "x" None arr12 (ETuple [arr12; arr123]) 2 true false) /\
  explore [PObj (CUser 0) 7] ex_array = (Err NameError, ex_array).
Proof. split; [discriminate|split; vm_compute; reflexivity]. Qed.

(* ------------------------------------------------------------------ *)
(** ** C5: PickleParameter *)

(** An instance of a user class, rejected by the native classifier. *)
Definition ex_obj : pyval := PObj (CUser 0) 7.

(** [PickleParameter("y", obj)] *)
Definition ex_pickle : param := snd (set ex_obj (fresh PickleParameter_ "y")).

(** [PickleParameter("y", obj).explore([obj, obj2])] *)
Definition ex_pickle_explored : param :=
  snd (explore [ex_obj; PObj (CUser 0) 8] ex_pickle).

(** The pickled path restores the value and, when there is an
    [ExploredData] table, the explored values and the length. *)
Lemma pickle_roundtrip_explored (s : param) :
  p_cls s = PickleParameter_ -> param_is_supported_data (p_data s) = false ->
  is_array s = true ->
  exists s', roundtrip s = Ok s' /\ p_data s' = p_data s /\
    explored_list (p_explored_data s') = explored_list (p_explored_data s) /\
    p_length s' = List.length (explored_list (p_explored_data s)).
Proof.
  intros Hc Hs Ha.
  unfold roundtrip; pm_simpl; rewrite Hc; pm_simpl; rewrite Hs, Ha; simpl.
  assert (Hl : forall l, loads_all (map pickle_dumps l) = Ok l)
    by (induction l as [|v l IH]; simpl; [reflexivity|rewrite IH; reflexivity]).
  rewrite Hl; simpl.
  eexists; split; [reflexivity|]; simpl; auto.
Qed.

(** C5 (code). A single [PickleParameter] holding a user object is
    stored under the column [data__pckl__]; loading the record into a new
    [PickleParameter] restores the object but leaves the length at 0
    (the pickled branch of [__load__] never sets it, unlike
    [Parameter.__load__]), so the copy reads as empty. A plain
    [Parameter] refuses the same object in [set] ([AttributeError]) and
    in [explore] ([NameError]). *)
Theorem pickle_single_load_length :
  param_is_supported_data ex_obj = false /\
  fst (store ex_pickle) = Ok [(Data, [("data__pckl__", [PPickle ex_obj])])] /\
  roundtrip ex_pickle =
    Ok (mkParam PickleParameter_ "y" None ex_obj (ETuple []) 0 false false) /\
  is_empty (mkParam PickleParameter_ "y" None ex_obj (ETuple []) 0 false false) = true /\
  fst (set ex_obj (fresh Parameter_ "x")) = Err AttributeError /\
  fst (explore [ex_obj] ex_single) = Err NameError.
Proof. repeat split; vm_compute; reflexivity. Qed.

Example pickle_explored_roundtrip_example :
  match roundtrip ex_pickle_explored with
  | Ok s' => p_data s' = ex_obj /\ p_length s' = 2%nat /\
             p_explored_data s' = ETuple [ex_obj; PObj (CUser 0) 8]
  | Err _ => False
  end.
Proof. vm_compute; auto. Qed.

(* ------------------------------------------------------------------ *)
(** ** C8: SimpleResult construction *)

(** C8 (counterexample). [SimpleResult("r", 1.0, 2.0, comment="c")]
    raises [TypeError]: a float is not an array, [ObjectTable] or
    [DataFrame]. *)
Lemma simple_result_floats_counterexample :
  new_simple_result "r" [PFloat 1; PFloat 2] [("comment", PStr "c")] = Err TypeError.
Proof. vm_compute; reflexivity. Qed.

(** C8 (amended). [SimpleResult(fullname, 1.0, 2.0, comment="c")]
    raises [TypeError]; with bulk items [a] and [b] (numpy arrays,
    ObjectTables or DataFrames), [SimpleResult(fullname, a, b,
    comment="c")] holds exactly the items [res0 = a] and [res1 = b], its
    comment is ["c"], and no data item is named [comment]. *)
Theorem simple_result_positional (fullname : string) (a b : pyval) :
  is_bulk a = true -> is_bulk b = true ->
  new_simple_result fullname [PFloat 1; PFloat 2] [("comment", PStr "c")] = Err TypeError /\
  exists r, new_simple_result fullname [a; b] [("comment", PStr "c")] = Ok r /\
    r_data r = [("res0", a); ("res1", b)] /\
    result_getattr r "res0" = Ok a /\ result_getattr r "res1" = Ok b /\
    result_getattr r "comment" = Ok (PStr "c") /\
    dict_get "comment" (r_data r) = None.
Proof.
  intros Ha Hb; split; [reflexivity|].
  unfold new_simple_result; simpl.
  unfold result_set; simpl.
  unfold set_single; simpl; rewrite Ha; simpl; rewrite Hb; simpl.
  eexists; split; [reflexivity|]; simpl; auto.
Qed.

Lemma simple_result_positional_witness :
  is_bulk arr12 = true /\ is_bulk (PObj CObjectTable 0) = true /\
  exists r, new_simple_result "r" [arr12; PObj CObjectTable 0] [("comment", PStr "c")] = Ok r /\
    r_data r = [("res0", arr12); ("res1", PObj CObjectTable 0)].
Proof.
  assert (Ha : is_bulk arr12 = true) by reflexivity.
  assert (Hb : is_bulk (PObj CObjectTable 0) = true) by reflexivity.
  split; [exact Ha|split; [exact Hb|]].
  destruct (simple_result_positional "r" arr12 (PObj CObjectTable 0) Ha Hb)
    as [_ (r & Hr & Hd & _)].
  exists r; split; [exact Hr|exact Hd].
Defined.

(* ------------------------------------------------------------------ *)
(** ** C9: parameters without data *)




(* ------------------------------------------------------------------ *)
(** ** C10: storing and loading without data *)

(** A record whose [ExploredData] table has no rows. *)
Definition rec_no_rows : record :=
  [(Data, [("data", [PFloat 1])]); (ExploredData, [("data", [])])].

(** C10 (counterexample). Loading [rec_no_rows] into [Parameter("x")]
    sets the length to 0: the parameter is empty after the load. *)
Lemma load_no_rows_counterexample :
  match load rec_no_rows (fresh Parameter_ "x") with
  | (Ok _, s') => p_length s' = 0%nat /\ is_empty s' = true
  | (Err _, _) => False
  end.
Proof. vm_compute; split; reflexivity. Qed.

(** C10 (amended). For every [Parameter], also an empty one, [store()]
    returns a record whose [Data] table has the single entry
    [data = [current value]] (possibly [None]). [load] of a record
    without [ExploredData] sets the length to 1, and of a record with an
    [ExploredData] table to the number of its rows. Hence an empty
    [Parameter] stored and loaded again is not empty. *)
Theorem store_load_empty (s : param) :
  p_cls s = Parameter_ ->
  (exists rec, store s = (Ok rec, s) /\ dict_get Data rec = Some [("data", [p_data s])]) /\
  (forall rec t, dict_get ExploredData rec = None ->
     load rec (fresh Parameter_ (p_fullname s)) = (Ok tt, t) -> p_length t = 1%nat) /\
  (forall rec et t, dict_get ExploredData rec = Some et ->
     load rec (fresh Parameter_ (p_fullname s)) = (Ok tt, t) ->
     exists col, dict_get "data" et = Some col /\ p_length t = List.length col) /\
  (p_length s = 0%nat -> exists t, roundtrip s = Ok t /\ is_empty t = false).
Proof.
  intros Hc; split; [|split; [|split]].
  - pm_simpl; rewrite Hc; pm_simpl; eexists; split; reflexivity.
  - intros rec t Hx; pm_simpl; rewrite Hx.
    unfold dict_item; split_matches; try discriminate.
    intros H; inversion H; reflexivity.
  - intros rec et t Hx; pm_simpl; rewrite Hx.
    unfold dict_item; split_matches; try discriminate.
    intros H; inversion H; subst; exists a2; split; [|reflexivity].
    destruct (dict_get "data" et); congruence.
  - intros Hn; unfold roundtrip; pm_simpl; rewrite Hc; pm_simpl.
    unfold is_array; rewrite Hn; simpl.
    eexists; split; reflexivity.
Qed.

Lemma store_load_empty_witness :
  p_cls (fresh Parameter_ "x") = Parameter_ /\
  exists t, roundtrip (fresh Parameter_ "x") = Ok t /\ is_empty t = false.
Proof.
  assert (H1 : p_cls (fresh Parameter_ "x") = Parameter_) by reflexivity.
  split; [exact H1|].
  destruct (store_load_empty _ H1) as (_ & _ & _ & H).
  exact (H eq_refl).
Defined.

(* ================================================================== *)
(** * Further code of [parameter.py] *)

(* ------------------------------------------------------------------ *)
(** ** Names: [fullname.split('.')], [pop()] and ['.'.join] *)

Definition dot : Ascii.ascii := Ascii.ascii_of_nat 46.
Arguments dot : simpl never.

(** [s.split('.')] *)
Fixpoint split_dot (s : string) : list string :=
  match s with
  | EmptyString => [""]
  | String c s' =>
      let parts := split_dot s' in
      if Ascii.eqb c dot then "" :: parts
      else match parts with
           | p :: ps => String c p :: ps
           | [] => [String c ""]
           end
  end.

(** [sep.join(l)] *)
Fixpoint py_join (sep : string) (l : list string) : string :=
  match l with
  | [] => ""
  | [x] => x
  | x :: l' => x ++ sep ++ py_join sep l'
  end.

(** [_name] as set by [BaseParameter.__init__], [BaseParameter._rename],
    [BaseResult.__init__] and [BaseResult._rename]: the last component,
    removed from the list by [pop()]. *)
Definition name_of (fullname : string) : string :=
  last (split_dot fullname) "".

(** [_location]: the remaining components joined by dots. *)
Definition location_of (fullname : string) : string :=
  py_join (String dot "") (removelast (split_dot fullname)).

(** [c in s] for a character *)
Definition has_char (c : Ascii.ascii) (s : string) : bool :=
  existsb (Ascii.eqb c) (list_ascii_of_string s).

Lemma split_dot_cons (s : string) : exists p ps, split_dot s = p :: ps.
Proof.
  induction s as [|c s IH]; simpl; [eauto|].
  destruct IH as (p & ps & ->).
  destruct (Ascii.eqb c dot); eauto.
Qed.

Lemma py_join_head (sep : string) (c : Ascii.ascii) (p : string) (ps : list string) :
  py_join sep (String c p :: ps) = String c (py_join sep (p :: ps)).
Proof. destruct ps; reflexivity. Qed.

Lemma join_split_dot (s : string) : py_join (String dot "") (split_dot s) = s.
Proof.
  induction s as [|c s IH]; [reflexivity|]; simpl.
  destruct (split_dot_cons s) as (p & ps & Hs); rewrite Hs in *.
  destruct (Ascii.eqb c dot) eqn:Hc.
  - apply Ascii.eqb_eq in Hc; subst c.
    change (String dot (py_join (String dot "") (p :: ps)) = String dot s).
    rewrite IH; reflexivity.
  - rewrite py_join_head, IH; reflexivity.
Qed.

Lemma split_dot_no_dot (s : string) :
  Forall (fun p => has_char dot p = false) (split_dot s).
Proof.
  induction s as [|c s IH]; simpl; [constructor; [reflexivity|constructor]|].
  destruct (split_dot_cons s) as (p & ps & Hs); rewrite Hs in *.
  destruct (Ascii.eqb c dot) eqn:Hc.
  - constructor; [reflexivity|exact IH].
  - inversion IH; subst; constructor; [|assumption].
    unfold has_char in *; cbn [list_ascii_of_string existsb].
    rewrite Ascii.eqb_sym, Hc; assumption.
Qed.

Lemma split_dot_length (s : string) :
  has_char dot s = true -> (2 <= List.length (split_dot s))%nat.
Proof.
  induction s as [|c s IH]; unfold has_char in *;
    cbn [split_dot list_ascii_of_string existsb]; [discriminate|].
  destruct (split_dot_cons s) as (p & ps & Hs); rewrite Hs in *.
  rewrite (Ascii.eqb_sym dot c).
  destruct (Ascii.eqb c dot); cbn [orb]; intros H.
  - apply le_n_S; destruct ps; simpl; lia.
  - apply IH in H; exact H.
Qed.

Lemma split_dot_single (s : string) :
  has_char dot s = false -> split_dot s = [s].
Proof.
  induction s as [|c s IH]; unfold has_char in *;
    cbn [split_dot list_ascii_of_string existsb]; [reflexivity|].
  rewrite (Ascii.eqb_sym dot c).
  destruct (Ascii.eqb c dot); cbn [orb]; [discriminate|].
  intros H; rewrite (IH H); reflexivity.
Qed.

Lemma str_app_assoc (a b c : string) : (a ++ b) ++ c = a ++ b ++ c.
Proof. induction a as [|ch a IH]; simpl; [reflexivity|rewrite IH; reflexivity]. Qed.

Lemma py_join_snoc (sep x : string) (l : list string) :
  l <> [] -> py_join sep (l ++ [x]) = py_join sep l ++ sep ++ x.
Proof.
  induction l as [|y l IH]; [congruence|]; intros _.
  destruct l as [|z l]; [reflexivity|].
  replace (py_join sep ((y :: z :: l) ++ [x]))
    with (y ++ sep ++ py_join sep ((z :: l) ++ [x])) by reflexivity.
  replace (py_join sep (y :: z :: l)) with (y ++ sep ++ py_join sep (z :: l))
    by reflexivity.
  rewrite IH by discriminate.
  rewrite !str_app_assoc; reflexivity.
Qed.

(** The name is the part of the full name after its last dot and
    contains no dot; the location is the part before it. A full name
    without a dot is its own name, with location [""]. *)
Theorem name_location_split (fullname : string) :
  has_char dot (name_of fullname) = false /\
  (has_char dot fullname = true ->
     location_of fullname ++ String dot "" ++ name_of fullname = fullname) /\
  (has_char dot fullname = false ->
     name_of fullname = fullname /\ location_of fullname = "").
Proof.
  split; [|split].
  - unfold name_of.
    destruct (split_dot_cons fullname) as (p & ps & Hs).
    pose proof (split_dot_no_dot fullname) as Hf; rewrite Hs in *.
    apply (proj1 (Forall_forall _ _) Hf).
    assert (Hne : p :: ps <> []) by discriminate.
    pose proof (app_removelast_last "" Hne) as He.
    rewrite He at 2; apply in_or_app; right; left; reflexivity.
  - intros Hd; unfold name_of, location_of.
    pose proof (split_dot_length fullname Hd) as Hl.
    assert (Hne : split_dot fullname <> []) by (intros E; rewrite E in Hl; simpl in Hl; lia).
    rewrite <- py_join_snoc.
    + rewrite <- (app_removelast_last "" Hne); apply join_split_dot.
    + intros E.
      pose proof (app_removelast_last "" Hne) as He; rewrite E in He; simpl in He.
      rewrite He in Hl; simpl in Hl; lia.
  - intros Hd; unfold name_of, location_of; rewrite (split_dot_single _ Hd); auto.
Qed.

(* ------------------------------------------------------------------ *)
(** ** Further Parameter methods *)



(** [to_str] (used by [__str__]) restores the lock flag it found: the
    object is the same afterwards, locked or not. *)
Theorem to_str_pure (s : param) : snd (to_str s) = s.
Proof. destruct s; reflexivity. Qed.



(** [empty()] on an unlocked parameter holding a value: the parameter
    becomes empty (length 0, value [None], no explored values) and stays
    unlocked, so [set(v)] with a supported [v] makes it a single-value
    parameter again. On an empty unlocked parameter [empty()] raises
    [TypeError] (from [shrink]) and on a locked one the lock exception,
    both times leaving the object as it was. *)
Theorem empty_then_set (s : param) :
  (p_locked s = false -> (1 <= p_length s)%nat ->
   exists s', empty s = (Ok tt, s') /\ is_empty s' = true /\ p_data s' = PNone /\
     p_locked s' = false /\ explored_list (p_explored_data s') = [] /\
     forall v, is_supported_data s v = true ->
       exists s'', set v s' = (Ok tt, s'') /\ p_data s'' = v /\ p_length s'' = 1%nat) /\
  (p_locked s = false -> p_length s = 0%nat -> empty s = (Err TypeError, s)) /\
  (p_locked s = true -> empty s = (Err ParameterLockedException, s)).
Proof.
  split; [|split].
  - intros Hl Hn; pm_simpl; unfold is_locked, is_empty; rewrite Hl.
    destruct (p_length s) as [|n] eqn:Hlen; [lia|]; simpl.
    rewrite ?Hl, ?Hlen; simpl.
    eexists; split; [reflexivity|]; simpl.
    repeat split; auto.
    intros v Hv; pm_simpl; unfold is_supported_data in *; simpl.
    unfold convert_data; destruct (p_cls s); rewrite ?Hv; simpl;
      eexists; repeat split; reflexivity.
  - intros Hl Hn; pm_simpl; unfold is_locked, is_empty; rewrite Hl, Hn; reflexivity.
  - intros Hl; pm_simpl; unfold is_locked; rewrite Hl; reflexivity.
Qed.

Lemma empty_then_set_witness :
  exists s', empty ex_single = (Ok tt, s') /\ is_empty s' = true.
Proof.
  assert (H1 : p_locked ex_single = false) by reflexivity.
  assert (H2 : (1 <= p_length ex_single)%nat) by (vm_compute; auto).
  destruct (proj1 (empty_then_set ex_single) H1 H2) as (s' & He & Hemp & _).
  exists s'; split; [exact He|exact Hemp].
Defined.

(** [shrink()] on an unlocked parameter holding a value keeps the current
    value and makes the length 1; the explored data become the empty
    dict [{}], so every later [set_parameter_access(n)] raises
    [KeyError]. *)
Theorem shrink_single (s : param) :
  p_locked s = false -> (1 <= p_length s)%nat ->
  exists s', shrink s = (Ok tt, s') /\ p_data s' = p_data s /\ p_length s' = 1%nat /\
    is_array s' = false /\
    forall n, set_parameter_access n s' = (Err KeyError, s').
Proof.
  intros Hl Hn; pm_simpl; unfold is_locked, is_empty; rewrite Hl.
  destruct (p_length s) as [|k] eqn:Hlen; [lia|]; simpl.
  eexists; split; [reflexivity|]; repeat split.
  intros n; pm_simpl; unfold is_array; simpl.
  rewrite andb_false_r; reflexivity.
Qed.

(** An explored parameter is reset by [unlock()], [shrink()] and
    [set(v)]: afterwards it holds the single value [v]. *)
Lemma shrink_single_witness :
  exists s', shrink (snd (unlock ex_explored)) = (Ok tt, s') /\
    fst (set (PFloat 7) s') = Ok tt /\ p_length (snd (set (PFloat 7) s')) = 1%nat.
Proof.
  assert (H1 : p_locked (snd (unlock ex_explored)) = false) by reflexivity.
  assert (H2 : (1 <= p_length (snd (unlock ex_explored)))%nat) by (vm_compute; auto).
  destruct (shrink_single _ H1 H2) as (s' & Hs & _).
  exists s'; split; [exact Hs|].
  vm_compute in Hs; injection Hs as <-; split; vm_compute; reflexivity.
Defined.

(** With [set_full_copy(True)] the copy sent to another process keeps
    the explored values: [set_parameter_access(i)] followed by [get()] on
    the copy returns the [i]-th explored value. *)
Theorem full_copy_transfer (s : param) (l : list pyval) (i : nat) :
  p_explored_data s = ETuple l -> List.length l = p_length s ->
  (i < List.length l)%nat ->
  exists w, set_parameter_access (Z.of_nat i) (transfer (snd (set_full_copy true s)))
              = (Ok tt, w) /\ fst (get w) = Ok (nth i l PNone).
Proof.
  intros He Hl Hi; pm_simpl; rewrite He; simpl.
  replace (Z.of_nat (p_length s) <=? Z.of_nat i)%Z with false
    by (symmetry; apply Z.leb_gt; lia).
  simpl; rewrite (py_index_nonneg l i PNone Hi).
  eexists; split; reflexivity.
Qed.

Lemma full_copy_transfer_witness :
  exists w, set_parameter_access 1%Z (transfer (snd (set_full_copy true ex_explored)))
              = (Ok tt, w) /\ fst (get w) = Ok (PFloat 2).
Proof.
  exact (full_copy_transfer ex_explored [PFloat 1; PFloat 2; PFloat 3] 1%nat
           ltac:(vm_compute; reflexivity) ltac:(vm_compute; reflexivity)
           ltac:(simpl; auto)).
Defined.

(** The records [store()] produces for a [Parameter]: one [Data] row, and
    an [ExploredData] table with at least two rows or none. *)
Definition canonical_record (v : pyval) (ex : option (list pyval)) : record :=
  (Data, [("data", [v])])
    :: match ex with Some l => [(ExploredData, [("data", l)])] | None => [] end.

(** Loading a record of the shape [store()] produces into any
    [Parameter] and storing again gives back the same record. *)
Theorem load_store_record (s : param) (v : pyval) (ex : option (list pyval)) :
  p_cls s = Parameter_ ->
  (forall l, ex = Some l -> (2 <= List.length l)%nat) ->
  exists s', load (canonical_record v ex) s = (Ok tt, s') /\
    fst (store s') = Ok (canonical_record v ex).
Proof.
  intros Hc Hex; pm_simpl; rewrite Hc; pm_simpl.
  destruct ex as [l|].
  - specialize (Hex l eq_refl); simpl.
    eexists; split; [reflexivity|]; simpl; rewrite Hc; simpl.
    destruct (List.length l) as [|[|k]] eqn:Hl; [lia|lia|reflexivity].
  - simpl; eexists; split; [reflexivity|]; simpl; rewrite Hc; reflexivity.
Qed.

Lemma load_store_record_witness :
  exists s', load (canonical_record (PInt 4) (Some [PInt 4; PInt 5])) (fresh Parameter_ "z")
               = (Ok tt, s') /\
    fst (store s') = Ok (canonical_record (PInt 4) (Some [PInt 4; PInt 5])).
Proof.
  apply load_store_record; [reflexivity|].
  intros l H; injection H as <-; simpl; auto.
Defined.



(** The values a [Parameter] holds: the current value is [None] or
    natively supported, and so is every explored value. *)
Definition values_supported (s : param) : Prop :=
  (p_data s = PNone \/ param_is_supported_data (p_data s) = true) /\
  Forall (fun v => param_is_supported_data v = true) (explored_list (p_explored_data s)).

Definition not_load (o : op) : bool :=
  match o with OpLoad _ => false | _ => true end.

Lemma sanity_loop_supported (s : param) (d : pyval) (l t : list pyval) :
  sanity_loop s d l = Ok t -> Forall (fun v => is_supported_data s v = true) t.
Proof.
  revert t; induction l as [|v l IH]; simpl; intros t H.
  - injection H as <-; constructor.
  - unfold convert_data in H.
    destruct (is_supported_data s v) eqn:Hs; simpl in H; [|discriminate].
    destruct (values_of_same_type v d); simpl in H; [|discriminate].
    destruct (sanity_loop s d l) as [tl|e]; [|discriminate].
    injection H as <-; constructor; auto.
Qed.

Lemma py_index_in {A} (l : list A) (n : Z) (a : A) : py_index l n = Ok a -> In a l.
Proof.
  unfold py_index; intros H.
  repeat match type of H with
         | (if ?b then _ else _) = _ => destruct b
         end;
    try discriminate;
    match type of H with
    | match ?e with _ => _ end = _ => destruct e eqn:He; [|discriminate]
    end;
    injection H as ->; eapply nth_error_In; eauto.
Qed.

Lemma step_keeps_class (o : op) (s : param) : p_cls (step o s) = p_cls s.
Proof.
  destruct s as [c fn cm d e n lk fc].
  destruct o; unfold step; pm_simpl;
    unfold is_locked, is_array, is_empty in *; simpl in *; split_matches;
    simpl in *; auto;
    try match goal with
        | H : (if ?x then _ else _) _ = _ |- _ =>
            destruct x; inversion H; subst; simpl in *; auto
        end.
Qed.

(** A [Parameter] only ever holds [None] or natively supported values,
    whatever sequence of calls it goes through, as long as none of them
    is [__load__] (which takes the record's values unchecked). *)
Theorem run_values_supported (ops : list op) (s : param) :
  p_cls s = Parameter_ -> forallb not_load ops = true ->
  values_supported s -> values_supported (run ops s).
Proof.
  revert s; induction ops as [|o ops IH]; intros s Hc Hnl Hv; simpl; auto.
  simpl in Hnl; apply andb_prop in Hnl as [Ho Hnl].
  apply IH; [rewrite step_keeps_class; exact Hc|exact Hnl|].
  destruct s as [c fn cm d e n lk fc]; simpl in Hc; subst c.
  destruct Hv as [Hd He].
  destruct o; simpl in Ho; try discriminate; unfold step; pm_simpl;
    unfold values_supported, is_locked, is_array, is_empty, is_supported_data,
      convert_data in *; simpl in *.
  - (* set *)
    destruct lk; [split; auto|]; destruct (1 <? n)%nat; [split; auto|].
    destruct (param_is_supported_data v) eqn:Hs; simpl; split; auto.
  - (* explore *)
    destruct lk; [split; auto|]; destruct (1 <? n)%nat; [split; auto|].
    match goal with
    | |- context [sanity_loop ?a ?b vs] => destruct (sanity_loop a b vs) as [t|err] eqn:Hsl
    end; simpl; split; auto.
    apply sanity_loop_supported in Hsl; exact Hsl.
  - (* set_parameter_access *)
    destruct ((Z.of_nat n <=? n0)%Z && (1 <? n)%nat); [split; auto|].
    destruct (explored_index e n0) as [v|err] eqn:Hi; simpl; split; auto.
    right; destruct e as [l|]; simpl in *; [|discriminate].
    apply py_index_in in Hi.
    exact (proj1 (Forall_forall _ _) He v Hi).
  - (* get *) split; auto.
  - (* to_str *) split; auto.
  - (* shrink *)
    destruct (n =? 0)%nat; [split; auto|]; destruct lk; split; auto.
  - (* empty *)
    destruct lk; cbn; [split; auto|]; destruct (n =? 0)%nat; cbn; split; auto.
  - split; auto.
  - split; auto.
  - split; auto.
  - destruct cm; split; auto.
  - split; auto.
  - (* transfer *) destruct fc; split; auto.
Qed.

Lemma run_values_supported_witness :
  values_supported (run [OpExplore [PFloat 1; PFloat 2]; OpSetParameterAccess 1%Z;
                         OpUnlock; OpShrink] ex_single).
Proof.
  apply run_values_supported; [reflexivity|reflexivity|].
  split; [right; reflexivity|constructor].
Defined.

(* ------------------------------------------------------------------ *)
(** ** SimpleResult: attribute access *)


(** [SimpleResult.__getattr__] (the guard on [_data] and [_fullname]
    being absent from [__dict__] never fires on a constructed result). *)
Definition sresult_getattr (r : sresult) (name : string) : result pyval :=
  if String.eqb name "Comment" || String.eqb name "comment" then Ok (r_comment r)
  else match dict_get name (r_data r) with
       | Some v => Ok v
       | None => Err AttributeError
       end.




(** [SimpleResult.is_empty] *)
Definition sresult_is_empty (r : sresult) : bool := Nat.eqb (List.length (r_data r)) 0.








(** Reading a decimal numeral back, digit by digit. *)
Fixpoint parse_dec (v : nat) (s : string) : nat :=
  match s with
  | EmptyString => v
  | String d s' => parse_dec (v * 10 + (Ascii.nat_of_ascii d - 48)) s'
  end.

Lemma str_nat_aux_parse (fuel n : nat) (acc : string) (v : nat) :
  n < fuel ->
  exists k, parse_dec v (str_nat_aux fuel n acc) = parse_dec (v * 10 ^ k + n) acc.
Proof.
  revert n acc v; induction fuel as [|fuel IH]; intros n acc v Hn; [lia|].
  cbn [str_nat_aux].
  assert (Hd : Ascii.nat_of_ascii (Ascii.ascii_of_nat (48 + n mod 10)) - 48 = n mod 10).
  { rewrite Ascii.nat_ascii_embedding; [lia|].
    pose proof (Nat.mod_upper_bound n 10 ltac:(lia)); lia. }
  destruct (Nat.ltb n 10) eqn:Hlt.
  - apply Nat.ltb_lt in Hlt.
    exists 1; cbn [parse_dec]; rewrite Hd, Nat.mod_small by exact Hlt.
    f_equal; lia.
  - apply Nat.ltb_ge in Hlt.
    assert (Hq : n / 10 < fuel).
    { pose proof (Nat.div_lt n 10 ltac:(lia) ltac:(lia)); lia. }
    destruct (IH (n / 10) (String (Ascii.ascii_of_nat (48 + n mod 10)) acc) v Hq)
      as [k Hk].
    exists (S k); rewrite Hk; cbn [parse_dec]; rewrite Hd.
    f_equal.
    pose proof (Nat.div_mod_eq n 10).
    rewrite Nat.pow_succ_r'; nia.
Qed.

Lemma parse_str_nat (n : nat) : parse_dec 0 (str_nat n) = n.
Proof.
  unfold str_nat.
  destruct (str_nat_aux_parse (S n) n "" 0 ltac:(lia)) as [k Hk].
  rewrite Hk; reflexivity.
Qed.

Lemma str_nat_inj (m n : nat) : str_nat m = str_nat n -> m = n.
Proof.
  intros H; rewrite <- (parse_str_nat m), <- (parse_str_nat n), H; reflexivity.
Qed.

Lemma res_name_inj (m n : nat) : "res" ++ str_nat m = "res" ++ str_nat n -> m = n.
Proof.
  intros H; injection H as H; apply str_nat_inj; exact H.
Qed.

Lemma dict_set_absent {A} (k : string) (v : A) (d : list (string * A)) :
  dict_get k d = None -> dict_set k v d = (d ++ [(k, v)])%list.
Proof.
  induction d as [|[k0 a] d IH]; simpl; [reflexivity|].
  destruct (String.eqb k k0); [discriminate|].
  intros H; rewrite IH by exact H; reflexivity.
Qed.

Lemma dict_get_app {A} (k : string) (d1 d2 : list (string * A)) :
  dict_get k (d1 ++ d2)%list =
  match dict_get k d1 with Some a => Some a | None => dict_get k d2 end.
Proof.
  induction d1 as [|[k0 a] d1 IH]; simpl; [reflexivity|].
  destruct (String.eqb k k0); [reflexivity|exact IH].
Qed.

Lemma set_args_bulk (args : list pyval) (idx : nat) (r : sresult) :
  Forall (fun a => is_bulk a = true) args ->
  (forall j, idx <= j -> dict_get ("res" ++ str_nat j) (r_data r) = None) ->
  set_args idx args r =
  (Ok tt, mkResult (r_fullname r)
            (List.app (r_data r) (combine (map (fun i => "res" ++ str_nat i) (seq idx (List.length args))) args))
            (r_comment r)).
Proof.
  revert idx r; induction args as [|a args IH]; intros idx r Hb Hab.
  - cbn; rewrite app_nil_r; destruct r; reflexivity.
  - inversion Hb as [|? ? Ha Hb']; subst.
    cbn [set_args]; unfold set_single.
    replace (String.eqb ("res" ++ str_nat idx) "comment" ||
             String.eqb ("res" ++ str_nat idx) "Comment") with false by reflexivity.
    replace (String.eqb ("res" ++ str_nat idx) "Info") with false by reflexivity.
    rewrite Ha, dict_set_absent by (apply Hab; lia).
    rewrite IH by
      (exact Hb' ||
       (intros j Hj; cbn [r_data]; rewrite dict_get_app, Hab by lia; cbn [dict_get];
        destruct (String.eqb ("res" ++ str_nat j) ("res" ++ str_nat idx)) eqn:E;
        [apply String.eqb_eq, res_name_inj in E; lia | reflexivity])).
    cbn [r_fullname r_data r_comment List.length seq map combine].
    rewrite <- app_assoc; reflexivity.
Qed.

Lemma dict_get_res_names (args : list pyval) (idx i : nat) :
  i < List.length args ->
  dict_get ("res" ++ str_nat (idx + i))
    (combine (map (fun j => "res" ++ str_nat j) (seq idx (List.length args))) args)
  = Some (nth i args PNone).
Proof.
  revert idx i; induction args as [|a args IH]; intros idx i Hi; cbn in Hi; [lia|].
  cbn [List.length seq map combine dict_get].
  destruct i as [|i].
  - rewrite Nat.add_0_r, String.eqb_refl; reflexivity.
  - destruct (String.eqb ("res" ++ str_nat (idx + S i)) ("res" ++ str_nat idx)) eqn:E.
    + apply String.eqb_eq, res_name_inj in E; lia.
    + replace (idx + S i) with (S idx + i) by lia.
      cbn [nth]; apply IH; lia.
Qed.

(** A [SimpleResult] built from positional numpy arrays, [ObjectTable]s
    or [DataFrame]s and a [comment] keyword stores the [i]-th positional
    argument under the name [res<i>], in argument order, and keeps the
    comment as given, whatever its type (the constructor pops it without
    the [str] check of [set_single]). Reading attribute [res<i>] gives
    the [i]-th argument back. *)
Theorem result_positional_names (fullname : string) (args : list pyval) (c : pyval) :
  Forall (fun a => is_bulk a = true) args ->
  exists r, new_simple_result fullname args [("comment", c)] = Ok r /\
    r_fullname r = fullname /\ r_comment r = c /\
    r_data r = combine (map (fun i => "res" ++ str_nat i) (seq 0 (List.length args))) args /\
    (forall i, i < List.length args ->
       sresult_getattr r ("res" ++ str_nat i) = Ok (nth i args PNone)).
Proof.
  intros Hb.
  unfold new_simple_result; cbn [kw_pop String.eqb Ascii.eqb Bool.eqb andb].
  unfold result_set.
  rewrite set_args_bulk by (exact Hb || (intros; reflexivity)).
  cbn [set_kwargs r_fullname r_data r_comment app].
  eexists; split; [reflexivity|].
  cbn [r_fullname r_data r_comment]; split; [reflexivity|split; [reflexivity|split; [reflexivity|]]].
  intros i Hi; unfold sresult_getattr; cbn [r_data r_comment].
  replace (String.eqb ("res" ++ str_nat i) "Comment" ||
           String.eqb ("res" ++ str_nat i) "comment") with false by reflexivity.
  pose proof (dict_get_res_names args 0 i Hi) as H; cbn [Nat.add] in H.
  rewrite H; reflexivity.
Qed.

Lemma result_positional_names_witness :
  exists r, new_simple_result "r" [arr12; PObj CDataFrame 3] [("comment", PInt 7)] = Ok r /\
    r_comment r = PInt 7 /\
    sresult_getattr r "res1" = Ok (PObj CDataFrame 3).
Proof.
  destruct (result_positional_names "r" [arr12; PObj CDataFrame 3] (PInt 7)
              ltac:(repeat constructor)) as (r & H1 & _ & H3 & _ & H5).
  exists r; split; [exact H1|split; [exact H3|]].
  apply (H5 1); simpl; lia.
Defined.

(** [SimpleResult.set_single] on its reserved names and on unsupported
    items: [Info] always raises [ValueError] and changes nothing; under
    [comment] or [Comment] a non-[str] item fails the assertion and
    changes nothing, while a [str] item replaces the comment and then
    raises [TypeError] (a [str] is not a storable item); under any other
    name an item that is no numpy array, [ObjectTable] or [DataFrame]
    raises [TypeError] and changes nothing. *)
Theorem set_single_reserved (item : pyval) (r : sresult) :
  set_single "Info" item r = (Err ValueError, r) /\
  (is_str item = false ->
     set_single "comment" item r = (Err AssertionError, r) /\
     set_single "Comment" item r = (Err AssertionError, r)) /\
  (is_str item = true ->
     set_single "comment" item r = (Err TypeError, mkResult (r_fullname r) (r_data r) item) /\
     set_single "Comment" item r = (Err TypeError, mkResult (r_fullname r) (r_data r) item)) /\
  (forall name, name <> "comment" -> name <> "Comment" -> name <> "Info" ->
     is_bulk item = false -> set_single name item r = (Err TypeError, r)).
Proof.
  assert (Hsb : is_str item = true -> is_bulk item = false)
    by (destruct item as [| | | | |? ? ?|[| |?] ?|?]; cbn; congruence).
  split; [|split; [|split]].
  - reflexivity.
  - intros Hs; unfold set_single; cbn [String.eqb Ascii.eqb Bool.eqb andb orb].
    rewrite Hs; split; reflexivity.
  - intros Hs; unfold set_single; cbn [String.eqb Ascii.eqb Bool.eqb andb orb].
    rewrite Hs; cbn [r_fullname r_data r_comment]; rewrite (Hsb Hs); split; reflexivity.
  - intros name H1 H2 H3 Hb; unfold set_single.
    apply String.eqb_neq in H1, H2, H3.
    rewrite H1, H2; cbn [orb]; rewrite H3, Hb; reflexivity.
Qed.

Lemma set_single_reserved_witness :
  set_single "comment" (PStr "note") (mkResult "r" [] PNone) =
    (Err TypeError, mkResult "r" [] (PStr "note")) /\
  set_single "comment" (PInt 1) (mkResult "r" [] PNone) =
    (Err AssertionError, mkResult "r" [] PNone) /\
  set_single "x" (PFloat 1) (mkResult "r" [] PNone) =
    (Err TypeError, mkResult "r" [] PNone).
Proof.
  destruct (set_single_reserved (PStr "note") (mkResult "r" [] PNone)) as (_ & _ & H & _).
  destruct (set_single_reserved (PInt 1) (mkResult "r" [] PNone)) as (_ & H' & _).
  destruct (set_single_reserved (PFloat 1) (mkResult "r" [] PNone)) as (_ & _ & _ & H'').
  split; [apply H; reflexivity|split; [apply H'; reflexivity|]].
  apply H''; [discriminate|discriminate|discriminate|reflexivity].
Defined.

(** The separator [add_comment] puts between comments, [';\n '] *)
Definition comment_sep : string := ";" ++ String (Ascii.ascii_of_nat 10) " ".

(** [p.add_comment(c1); p.add_comment(c2); ...] *)
Fixpoint add_comments (cs : list string) : PM unit :=
  match cs with
  | [] => ret tt
  | c :: cs' => add_comment c ;; add_comments cs'
  end.

Lemma with_comment_same (s : param) (c : option string) :
  p_comment s = c -> with_comment s c = s.
Proof. destruct s; cbn; intros ->; reflexivity. Qed.

Lemma with_comment_twice (s : param) (c c' : option string) :
  with_comment (with_comment s c) c' = with_comment s c'.
Proof. destruct s; reflexivity. Qed.

Lemma py_join_cons_app (sep a b : string) (l : list string) :
  py_join sep ((a ++ sep ++ b) :: l) = a ++ sep ++ py_join sep (b :: l).
Proof.
  destruct l as [|y l]; [reflexivity|].
  cbn [py_join]; rewrite !str_app_assoc; reflexivity.
Qed.

Lemma add_comments_some (cs : list string) (s : param) (c : string) :
  p_comment s = Some c ->
  add_comments cs s = (Ok tt, with_comment s (Some (py_join comment_sep (c :: cs)))).
Proof.
  revert s c; induction cs as [|x cs IH]; intros s c Hc.
  - cbn; rewrite with_comment_same by exact Hc; reflexivity.
  - cbn [add_comments]; unfold bindM, add_comment, modify; rewrite Hc.
    replace (c ++ ";" ++ String (Ascii.ascii_of_nat 10) " " ++ x)
      with (c ++ comment_sep ++ x) by reflexivity.
    rewrite (IH _ (c ++ comment_sep ++ x)) by reflexivity.
    rewrite with_comment_twice, py_join_cons_app; reflexivity.
Qed.

(** [Parameter.add_comment] never raises and never looks at the lock:
    called with [c1], ..., [cn] in turn it changes only the comment, which
    becomes the comments joined by [';\n '], behind the comment there was
    (if any). *)
Theorem add_comments_join (cs : list string) (s : param) :
  (p_comment s = None -> cs <> [] ->
     add_comments cs s = (Ok tt, with_comment s (Some (py_join comment_sep cs)))) /\
  (forall c, p_comment s = Some c ->
     add_comments cs s = (Ok tt, with_comment s (Some (py_join comment_sep (c :: cs))))).
Proof.
  split.
  - intros Hn Hcs; destruct cs as [|x cs]; [congruence|].
    cbn [add_comments]; unfold bindM, add_comment, modify; rewrite Hn.
    rewrite (add_comments_some cs _ x) by reflexivity.
    rewrite with_comment_twice; reflexivity.
  - intros c Hc; apply add_comments_some; exact Hc.
Qed.

Lemma add_comments_join_witness :
  add_comments ["a"; "b"] (with_locked ex_single true) =
    (Ok tt, with_comment (with_locked ex_single true)
              (Some ("a" ++ comment_sep ++ "b"))).
Proof.
  destruct (add_comments_join ["a"; "b"] (with_locked ex_single true)) as [H _].
  apply H; [reflexivity|discriminate].
Defined.

Lemma run_explored_consistent_witness :
  explored_consistent
    (run [OpUnlock; OpShrink; OpExplore [PFloat 4; PFloat 5]; OpGet; OpLoad rec_no_rows]
         ex_explored).
Proof.
  apply run_explored_consistent.
  - cbn; intuition discriminate.
  - unfold explored_consistent; vm_compute; intros _; reflexivity.
Defined.

Lemma pickle_roundtrip_explored_witness :
  exists s', roundtrip ex_pickle_explored = Ok s' /\ p_data s' = ex_obj /\
    p_length s' = 2.
Proof.
  destruct (pickle_roundtrip_explored ex_pickle_explored
              ltac:(reflexivity) ltac:(reflexivity) ltac:(reflexivity))
    as (s' & H1 & H2 & _ & H4).
  exists s'; split; [exact H1|split; [exact H2|]].
  rewrite H4; reflexivity.
Defined.
